(** * gossip/integration: bootstrap of a gossip instance and its naive
      crypto services

    A shallow embedding of [gossip/integration/integration.go].  Go strings
    are byte sequences and are modelled by [string] (a list of 8-bit
    [ascii]); byte slices are [list byte]; the signed and unsigned 64-bit
    integers of [strconv] are [Z] with the range checks and the wrap-around
    of the Go code written out; a panic is an explicit outcome.  The
    constructors of the packages [comm] and [gossip] are external to the
    file and enter as section variables; every call to them is logged. *)

From Stdlib Require Import ZArith List Bool Lia.
From Stdlib.Strings Require Import String Ascii Byte.
Import ListNotations.

Local Open Scope string_scope.
Local Open Scope Z_scope.

(** ** Byte slices *)

Definition bytes := list byte.

(** [[]byte(s)]: the bytes of a string. *)
Definition bytes_of_string (s : string) : bytes := list_byte_of_string s.

(** [bytes.Equal]: same length and same bytes; a nil slice is the empty
    sequence. *)
Fixpoint bytes_Equal (a b : bytes) : bool :=
  match a, b with
  | [], [] => true
  | x :: a', y :: b' => Byte.eqb x y && bytes_Equal a' b'
  | _, _ => false
  end.

(** ** Standard library: strings.Split with a one-byte separator *)

(** [strings.Split(s, sep)] for a separator of one byte, the only way the
    package calls it: the substrings of [s] between the occurrences of
    [sep], in order; one more element than there are separators (so never
    empty: the last branch below is not reached). *)
Fixpoint strings_Split (s : string) (sep : ascii) : list string :=
  match s with
  | EmptyString => [EmptyString]
  | String c s' =>
      if Ascii.eqb c sep then EmptyString :: strings_Split s' sep
      else match strings_Split s' sep with
           | seg :: rest => String c seg :: rest
           | [] => [String c EmptyString]
           end
  end.

(** [strings.IndexByte(s, c) >= 0]. *)
Fixpoint contains_byte (c : ascii) (s : string) : bool :=
  match s with
  | EmptyString => false
  | String x s' => Ascii.eqb x c || contains_byte c s'
  end.

(** ** Standard library: strconv.ParseInt at base 10 and bit size 64 *)

Inductive strconv_err := ErrSyntax | ErrRange.

(** [*strconv.NumError]. *)
Record NumError := mkNumError {
  Func : string;
  Num : string;
  Err : strconv_err
}.

Definition syntaxError (fn str : string) : NumError := mkNumError fn str ErrSyntax.
Definition rangeError (fn str : string) : NumError := mkNumError fn str ErrRange.

Definition maxUint64 : Z := 2 ^ 64 - 1.
Definition wrap64 (x : Z) : Z := x mod 2 ^ 64.

Definition byte_val (c : ascii) : Z := Z.of_N (N_of_ascii c).

(** [lower(c)]: [c | ('x' - 'X')]. *)
Definition lower (c : ascii) : Z := Z.lor (byte_val c) 32.

(** The digit switch of [ParseUint]: the value of a digit or letter, [None]
    for any other byte (the underscore case needs base 0). *)
Definition digit_val (c : ascii) : option Z :=
  if (48 <=? byte_val c) && (byte_val c <=? 57) then Some (byte_val c - 48)
  else if (97 <=? lower c) && (lower c <=? 122) then Some (lower c - 97 + 10)
  else None.

(** The loop of [ParseUint] over the remaining bytes, [n] the accumulator
    (a uint64), [s0] the whole argument for the error value. *)
Fixpoint ParseUint_loop (s0 : string) (base : Z) (n : Z) (s : string)
  : Z * option NumError :=
  match s with
  | EmptyString => (n, None)
  | String c s' =>
      match digit_val c with
      | None => (0, Some (syntaxError "ParseUint" s0))
      | Some d =>
          if base <=? d then (0, Some (syntaxError "ParseUint" s0))
          else if maxUint64 / base + 1 <=? n
               then (maxUint64, Some (rangeError "ParseUint" s0))
          else
            let n' := wrap64 (n * base) in
            let n1 := wrap64 (n' + d) in
            if (n1 <? n') || (maxUint64 <? n1)
            then (maxUint64, Some (rangeError "ParseUint" s0))
            else ParseUint_loop s0 base n1 s'
      end
  end.

(** [strconv.ParseUint(s, 10, 64)]. *)
Definition ParseUint (s : string) : Z * option NumError :=
  match s with
  | EmptyString => (0, Some (syntaxError "ParseUint" s))
  | _ => ParseUint_loop s 10 0 s
  end.

(** [strconv.ParseInt(s, 10, 64)]: an optional sign, then [ParseUint]; a
    syntax error is renamed, a range error or a magnitude outside int64 is a
    range error of [ParseInt].  Past the two range checks [un] is at most
    [2 ^ 63], and only with [neg], where [-int64(un)] is [- un]. *)
Definition ParseInt (s : string) : Z * option NumError :=
  match s with
  | EmptyString => (0, Some (syntaxError "ParseInt" s))
  | String c r =>
      let neg := Ascii.eqb c "-" in
      let s1 := if Ascii.eqb c "+" || Ascii.eqb c "-" then r else s in
      let cutoff := 2 ^ 63 in
      match ParseUint s1 with
      | (_, Some (mkNumError _ _ ErrSyntax)) => (0, Some (syntaxError "ParseInt" s))
      | (un, _) =>
          if negb neg && (cutoff <=? un)
          then (cutoff - 1, Some (rangeError "ParseInt" s))
          else if neg && (cutoff <? un)
          then (- cutoff, Some (rangeError "ParseInt" s))
          else ((if neg then - un else un), None)
      end
  end.

(** [ParseInt] after the sign is picked off, for the proofs: [neg] the
    sign, [s0] the whole argument, [t] the rest. *)
Definition ParseInt_unsigned (neg : bool) (s0 t : string) : Z * option NumError :=
  match ParseUint t with
  | (_, Some (mkNumError _ _ ErrSyntax)) => (0, Some (syntaxError "ParseInt" s0))
  | (un, _) =>
      if negb neg && (2 ^ 63 <=? un)
      then (2 ^ 63 - 1, Some (rangeError "ParseInt" s0))
      else if neg && (2 ^ 63 <? un)
      then (- 2 ^ 63, Some (rangeError "ParseInt" s0))
      else ((if neg then - un else un), None)
  end.

(** The integer a decimal literal denotes, as a reference for [ParseInt]:
    digits only, most significant first. *)
Definition is_digit (c : ascii) : bool :=
  (48 <=? byte_val c) && (byte_val c <=? 57).

Fixpoint digits_value (acc : Z) (s : string) : option Z :=
  match s with
  | EmptyString => Some acc
  | String c s' =>
      if is_digit c then digits_value (acc * 10 + (byte_val c - 48)) s'
      else None
  end.

Definition unsigned_decimal (s : string) : option Z :=
  match s with
  | EmptyString => None
  | _ => digits_value 0 s
  end.

(** An optional sign and at least one decimal digit. *)
Definition decimal_int (s : string) : option Z :=
  match s with
  | EmptyString => None
  | String c r =>
      if Ascii.eqb c "+" then unsigned_decimal r
      else if Ascii.eqb c "-" then option_map Z.opp (unsigned_decimal r)
      else unsigned_decimal s
  end.

(** ** Values shared with the collaborating packages *)

(** A Go [error]: the ones this package makes or receives are kept apart by
    their origin; an error of a collaborator is kept by its message. *)
Inductive error :=
| Errorf (format : string) (args : list bytes)
| NumErr (e : NumError)
| ErrorString (msg : string).

(** What a panic carries: a run-time error or the error passed to
    [panic]. *)
Inductive panic_value :=
| IndexOutOfRange (index : nat) (length : nat)
| PanicError (e : error).

(** How a call ends. *)
Inductive outcome (A : Type) :=
| Returned (a : A)
| Panicked (v : panic_value).
Arguments Returned {A} a.
Arguments Panicked {A} v.

(** [api.PeerIdentityType] and [common.PKIidType]: named types over
    [[]byte]. *)
Record PeerIdentityType := mkPeerIdentityType { peerIdentity_bytes : bytes }.
Record PKIidType := mkPKIidType { pkiID_bytes : bytes }.

(** [time.Duration] counts nanoseconds. *)
Definition Duration := Z.
Definition Nanosecond : Duration := 1.
Definition Microsecond : Duration := 1000 * Nanosecond.
Definition Millisecond : Duration := 1000 * Microsecond.
Definition Second : Duration := 1000 * Millisecond.

(** [int]: 64 bits wide on the platforms the peer is built for. *)
Definition IntSize : Z := 64.
Definition int_of_int64 (x : Z) : Z :=
  (x + 2 ^ (IntSize - 1)) mod 2 ^ IntSize - 2 ^ (IntSize - 1).

(** The fields of [gossip.Config] that [newConfig] sets. *)
Record Config := mkConfig {
  BindPort : Z;
  BootstrapPeers : list string;
  ID : string;
  MaxMessageCountToStore : Z;
  MaxPropagationBurstLatency : Duration;
  MaxPropagationBurstSize : Z;
  PropagateIterations : Z;
  PropagatePeerNum : Z;
  PullInterval : Duration;
  PullPeerNum : Z;
  SelfEndpoint : string
}.

(** The two implementations are empty structs. *)
Inductive naiveCryptoServiceImpl : Set := mk_naiveCryptoServiceImpl.
Inductive naiveCryptoService : Set := mk_naiveCryptoService.

Section CryptoServices.

(** [*proto.AliveMessage] and [api.SignedBlock]. *)
Variables AliveMessage SignedBlock : Type.

(** *** The interface GossipCryptoService *)

Class GossipCryptoService (T : Type) := {
  IsEnabled : T -> bool;
  Sign : T -> bytes -> bytes * option error;
  Verify : T -> bytes -> bytes -> bytes -> option error;
  ValidateAliveMsg : T -> AliveMessage -> bool;
  SignMessage : T -> AliveMessage -> AliveMessage
}.

(** A value of the interface type: a receiver with its method set. *)
Record GossipCryptoServiceValue := mkValue {
  dynamic_type : Type;
  methods : GossipCryptoService dynamic_type;
  receiver : dynamic_type
}.

(** *** naiveCryptoServiceImpl *)

Definition naiveCryptoServiceImpl_ValidateAliveMsg
  (cs : naiveCryptoServiceImpl) (msg : AliveMessage) : bool := true.

Definition naiveCryptoServiceImpl_Verify
  (cs : naiveCryptoServiceImpl) (vkID signature message : bytes) : option error :=
  if negb (bytes_Equal signature message)
  then Some (Errorf "Wrong signature" [])
  else None.

Definition naiveCryptoServiceImpl_SignMessage
  (cs : naiveCryptoServiceImpl) (msg : AliveMessage) : AliveMessage := msg.

Definition naiveCryptoServiceImpl_IsEnabled (cs : naiveCryptoServiceImpl) : bool :=
  false.

Definition naiveCryptoServiceImpl_Sign
  (cs : naiveCryptoServiceImpl) (msg : bytes) : bytes * option error :=
  (msg, None).

#[export] Instance naiveCryptoServiceImpl_GossipCryptoService
  : GossipCryptoService naiveCryptoServiceImpl := {
  IsEnabled := naiveCryptoServiceImpl_IsEnabled;
  Sign := naiveCryptoServiceImpl_Sign;
  Verify := naiveCryptoServiceImpl_Verify;
  ValidateAliveMsg := naiveCryptoServiceImpl_ValidateAliveMsg;
  SignMessage := naiveCryptoServiceImpl_SignMessage
}.

Definition NewGossipCryptoService : GossipCryptoServiceValue :=
  mkValue naiveCryptoServiceImpl _ mk_naiveCryptoServiceImpl.

(** *** naiveCryptoService *)

Definition naiveCryptoService_Verify
  (cs : naiveCryptoService) (peerIdentity : PeerIdentityType)
  (signature message : bytes) : option error :=
  let equal := bytes_Equal signature message in
  if negb equal
  then Some (Errorf "Wrong signature:%v, %v" [signature; message])
  else None.

Definition naiveCryptoService_ValidateAliveMsg
  (cs : naiveCryptoService) (am : AliveMessage) : bool := true.

Definition naiveCryptoService_SignMessage
  (cs : naiveCryptoService) (am : AliveMessage) : AliveMessage := am.

Definition naiveCryptoService_IsEnabled (cs : naiveCryptoService) : bool := true.

Definition naiveCryptoService_ValidateIdentity
  (cs : naiveCryptoService) (peerIdentity : PeerIdentityType) : option error := None.

Definition naiveCryptoService_GetPKIidOfCert
  (cs : naiveCryptoService) (peerIdentity : PeerIdentityType) : PKIidType :=
  mkPKIidType (peerIdentity_bytes peerIdentity).

Definition naiveCryptoService_VerifyBlock
  (cs : naiveCryptoService) (signedBlock : SignedBlock) : option error := None.

Definition naiveCryptoService_Sign
  (cs : naiveCryptoService) (msg : bytes) : bytes * option error :=
  (msg, None).

(** A method called through the interface value. *)
Definition Value_IsEnabled (v : GossipCryptoServiceValue) : bool :=
  @IsEnabled _ (methods v) (receiver v).

Definition Value_Verify (v : GossipCryptoServiceValue)
  (vkID signature message : bytes) : option error :=
  @Verify _ (methods v) (receiver v) vkID signature message.

End CryptoServices.

Arguments IsEnabled {AliveMessage T GossipCryptoService} _.
Arguments Sign {AliveMessage T GossipCryptoService} _ _.
Arguments Verify {AliveMessage T GossipCryptoService} _ _ _ _.
Arguments ValidateAliveMsg {AliveMessage T GossipCryptoService} _ _.
Arguments SignMessage {AliveMessage T GossipCryptoService} _ _.
Arguments Value_IsEnabled {AliveMessage} v.
Arguments Value_Verify {AliveMessage} v vkID signature message.
Arguments naiveCryptoServiceImpl_ValidateAliveMsg {AliveMessage} cs msg.
Arguments naiveCryptoServiceImpl_SignMessage {AliveMessage} cs msg.
Arguments naiveCryptoService_ValidateAliveMsg {AliveMessage} cs am.
Arguments naiveCryptoService_SignMessage {AliveMessage} cs am.
Arguments naiveCryptoService_VerifyBlock {SignedBlock} cs signedBlock.

(** ** Stand-ins for the collaborators, to run the bootstrap on examples *)

(** A communication layer that keeps what it was given. *)
Record LoopbackComm := mkLoopbackComm {
  loopback_security : GossipCryptoServiceValue unit;
  loopback_identity : bytes;
  loopback_dialOpts : list bool
}.

Definition loopback_NewCommInstance (s : unit)
  (sec : GossipCryptoServiceValue unit) (selfIdentity : bytes)
  (dialOpts : list bool) : LoopbackComm * option error :=
  (mkLoopbackComm sec selfIdentity dialOpts, None).

(** A communication layer that cannot be set up. *)
Definition failing_NewCommInstance (s : unit)
  (sec : GossipCryptoServiceValue unit) (selfIdentity : bytes)
  (dialOpts : list bool) : LoopbackComm * option error :=
  (mkLoopbackComm sec [] [], Some (ErrorString "listen failed")).

(** A gossip service that is its configuration. *)
Definition loopback_NewGossipService (conf : Config) (c : LoopbackComm)
  (crypto : naiveCryptoService) (sec : GossipCryptoServiceValue unit)
  (selfIdentity : PeerIdentityType) : Config := conf.

(** ** The bootstrap *)

Section Integration.

(** [*proto.AliveMessage], [*grpc.Server], [grpc.DialOption], [comm.Comm]
    and [gossip.Gossip]. *)
Variables AliveMessage Server DialOption Comm Gossip : Type.

(** *** Results, panics and the calls made *)

(** A call to a constructor of a collaborating package, with its
    arguments. *)
Inductive call :=
| Call_NewCommInstance (s : Server)
    (sec : GossipCryptoServiceValue AliveMessage)
    (selfIdentity : bytes) (dialOpts : list DialOption)
| Call_NewGossipService (conf : Config) (c : Comm)
    (crypto : naiveCryptoService)
    (sec : GossipCryptoServiceValue AliveMessage)
    (selfIdentity : PeerIdentityType).

(** A computation ends in a result or a panic and leaves the calls it made,
    oldest first. *)
Definition Go (A : Type) : Type := outcome A * list call.

Definition ret {A} (a : A) : Go A := (Returned a, []).
Definition panic {A} (v : panic_value) : Go A := (Panicked v, []).
Definition record_call (c : call) : Go unit := (Returned tt, [c]).
Definition bind {A B} (m : Go A) (f : A -> Go B) : Go B :=
  match m with
  | (Returned a, l) => let (r, l') := f a in (r, (l ++ l')%list)
  | (Panicked v, l) => (Panicked v, l)
  end.

Notation "x <- m ;; k" := (bind m (fun x => k))
  (at level 61, m at next level, right associativity).

(** [a[i]] on a slice of strings. *)
Definition index_string (a : list string) (i : nat) : Go string :=
  match nth_error a i with
  | Some x => ret x
  | None => panic (IndexOutOfRange i (List.length a))
  end.

(** *** The collaborators *)

Variable WithInsecure : DialOption.
Variable NewCommInstance :
  Server -> GossipCryptoServiceValue AliveMessage -> bytes ->
  list DialOption -> Comm * option error.
Variable NewGossipService :
  Config -> Comm -> naiveCryptoService ->
  GossipCryptoServiceValue AliveMessage -> PeerIdentityType -> Gossip.

Definition comm_NewCommInstance (s : Server)
  (sec : GossipCryptoServiceValue AliveMessage)
  (selfIdentity : bytes) (dialOpts : list DialOption) : Go (Comm * option error) :=
  _ <- record_call (Call_NewCommInstance s sec selfIdentity dialOpts) ;;
  ret (NewCommInstance s sec selfIdentity dialOpts).

Definition gossip_NewGossipService (conf : Config) (c : Comm)
  (crypto : naiveCryptoService)
  (sec : GossipCryptoServiceValue AliveMessage)
  (selfIdentity : PeerIdentityType) : Go Gossip :=
  _ <- record_call (Call_NewGossipService conf c crypto sec selfIdentity) ;;
  ret (NewGossipService conf c crypto sec selfIdentity).

(** *** newConfig, newComm and NewGossipComponent *)

(** The port segment of an endpoint: the element at index 1 of its split at
    [":"], which is what [newConfig] reads, when there is one. *)
Definition port_segment (selfEndpoint : string) : option string :=
  nth_error (strings_Split selfEndpoint ":") 1.

Definition newConfig (selfEndpoint : string) (bootPeers : list string) : Go Config :=
  seg <- index_string (strings_Split selfEndpoint ":") 1 ;;
  let '(port, err) := ParseInt seg in
  match err with
  | Some e => panic (PanicError (NumErr e))
  | None =>
      ret {| BindPort := int_of_int64 port;
             BootstrapPeers := bootPeers;
             ID := selfEndpoint;
             MaxMessageCountToStore := 100;
             MaxPropagationBurstLatency := Millisecond * 50;
             MaxPropagationBurstSize := 3;
             PropagateIterations := 1;
             PropagatePeerNum := 3;
             PullInterval := Second * 5;
             PullPeerNum := 3;
             SelfEndpoint := selfEndpoint |}
  end.

Definition newComm (selfEndpoint : string) (s : Server)
  (dialOpts : list DialOption) : Go Comm :=
  r <- comm_NewCommInstance s (NewGossipCryptoService AliveMessage)
         (bytes_of_string selfEndpoint) dialOpts ;;
  let '(comm, err) := r in
  match err with
  | Some e => panic (PanicError e)
  | None => ret comm
  end.

Definition NewGossipComponent (endpoint : string) (s : Server)
  (bootPeers : list string) : Go (Gossip * Comm) :=
  conf <- newConfig endpoint bootPeers ;;
  comm <- newComm endpoint s [WithInsecure] ;;
  g <- gossip_NewGossipService conf comm mk_naiveCryptoService
         (NewGossipCryptoService AliveMessage)
         (mkPeerIdentityType (bytes_of_string (ID conf))) ;;
  ret (g, comm).


(** *** Facts on the standard-library models *)

Lemma bytes_Equal_eq (a b : bytes) : bytes_Equal a b = true <-> a = b.
Proof.
  revert b; induction a as [|x a IH]; intros [|y b]; simpl;
    try (split; [discriminate | congruence]).
  - split; reflexivity.
  - rewrite andb_true_iff, IH. split.
    + intros [Hxy ->]. apply Byte.byte_dec_bl in Hxy. now subst.
    + intros [= -> ->]. split; [now apply Byte.byte_dec_lb | reflexivity].
Qed.

Lemma bytes_Equal_refl (m : bytes) : bytes_Equal m m = true.
Proof. now apply bytes_Equal_eq. Qed.

Lemma bytes_Equal_neq (a b : bytes) : a <> b -> bytes_Equal a b = false.
Proof.
  intros Hne. destruct (bytes_Equal a b) eqn:E; [|reflexivity].
  apply bytes_Equal_eq in E. contradiction.
Qed.

Lemma strings_Split_not_nil (s : string) (sep : ascii) :
  strings_Split s sep <> [].
Proof.
  induction s as [|c s IH]; simpl; [discriminate|].
  destruct (Ascii.eqb c sep); [discriminate|].
  destruct (strings_Split s sep); discriminate.
Qed.

Lemma strings_Split_no_sep (s : string) (sep : ascii) :
  contains_byte sep s = false -> strings_Split s sep = [s].
Proof.
  induction s as [|c s IH]; simpl; [reflexivity|].
  intros H. apply orb_false_iff in H as [Hc Hs].
  now rewrite Hc, (IH Hs).
Qed.

Lemma strings_Split_app (a b : string) (sep : ascii) :
  contains_byte sep a = false ->
  strings_Split (a ++ String sep b) sep = a :: strings_Split b sep.
Proof.
  induction a as [|c a IH]; simpl.
  - intros _. now rewrite Ascii.eqb_refl.
  - intros H. apply orb_false_iff in H as [Hc Ha].
    now rewrite Hc, (IH Ha).
Qed.

Lemma strings_Split_sep_length (s : string) (sep : ascii) :
  contains_byte sep s = true -> (2 <= List.length (strings_Split s sep))%nat.
Proof.
  induction s as [|c s IH]; simpl; [discriminate|].
  destruct (Ascii.eqb c sep); simpl.
  - intros _. pose proof (strings_Split_not_nil s sep) as Hn.
    destruct (strings_Split s sep); [contradiction | simpl; lia].
  - intros H. specialize (IH H).
    destruct (strings_Split s sep); simpl in *; lia.
Qed.

(** The element at index 1 is missing exactly when there is no separator. *)
Lemma strings_Split_index1_None (s : string) (sep : ascii) :
  nth_error (strings_Split s sep) 1 = None <-> contains_byte sep s = false.
Proof.
  split.
  - intros H. destruct (contains_byte sep s) eqn:E; [|reflexivity].
    apply strings_Split_sep_length in E.
    apply nth_error_None in H. lia.
  - intros H. now rewrite (strings_Split_no_sep _ _ H).
Qed.

Lemma byte_val_range (c : ascii) : 0 <= byte_val c < 256.
Proof.
  unfold byte_val. pose proof (N_ascii_bounded c). lia.
Qed.

Lemma digit_val_digit (c : ascii) :
  is_digit c = true ->
  digit_val c = Some (byte_val c - 48) /\ 0 <= byte_val c - 48 < 10.
Proof.
  unfold is_digit, digit_val. intros H. rewrite H.
  apply andb_true_iff in H as [H1 H2].
  apply Z.leb_le in H1, H2. split; [reflexivity | lia].
Qed.

Lemma digit_val_other (c : ascii) :
  is_digit c = false ->
  digit_val c = None \/ exists d, digit_val c = Some d /\ 10 <= d.
Proof.
  unfold is_digit, digit_val. intros H. rewrite H.
  destruct ((97 <=? lower c) && (lower c <=? 122)) eqn:E; [right | now left].
  apply andb_true_iff in E as [E1 _]. apply Z.leb_le in E1.
  eexists; split; [reflexivity | lia].
Qed.

Lemma digits_value_ge (s : string) (acc v : Z) :
  0 <= acc -> digits_value acc s = Some v -> acc <= v.
Proof.
  revert acc; induction s as [|c s IH]; simpl; intros acc Hacc.
  - intros [= <-]. lia.
  - destruct (is_digit c) eqn:Hd; [|discriminate].
    destruct (digit_val_digit c Hd) as [_ Hr].
    intros H. apply IH in H; lia.
Qed.

Lemma digits_value_no_colon (s : string) (acc v : Z) :
  digits_value acc s = Some v -> contains_byte ":" s = false.
Proof.
  revert acc; induction s as [|c s IH]; simpl; intros acc; [reflexivity|].
  destruct (is_digit c) eqn:Hd; [|discriminate].
  intros H. rewrite (IH _ H), orb_false_r.
  destruct (Ascii.eqb c ":") eqn:E; [|reflexivity].
  apply Ascii.eqb_eq in E. subst c. discriminate Hd.
Qed.

Lemma decimal_int_no_colon (s : string) (v : Z) :
  decimal_int s = Some v -> contains_byte ":" s = false.
Proof.
  destruct s as [|c r]; simpl; [discriminate|].
  assert (Hu : forall t w, unsigned_decimal t = Some w ->
                           contains_byte ":" t = false).
  { intros [|x t] w; [discriminate|].
    unfold unsigned_decimal. apply digits_value_no_colon. }
  destruct (Ascii.eqb c "+") eqn:Ep.
  - apply Ascii.eqb_eq in Ep. subst c. simpl. apply Hu.
  - destruct (Ascii.eqb c "-") eqn:Em.
    + apply Ascii.eqb_eq in Em. subst c. simpl.
      destruct (unsigned_decimal r) eqn:E; [|discriminate].
      intros _. eapply Hu; eauto.
    + intros H. apply (Hu (String c r)) in H. exact H.
Qed.

Lemma maxUint64_val : maxUint64 = 18446744073709551615.
Proof. reflexivity. Qed.

Lemma cutoff10_val : maxUint64 / 10 + 1 = 1844674407370955162.
Proof. reflexivity. Qed.

Lemma wrap64_small (x : Z) : 0 <= x <= maxUint64 -> wrap64 x = x.
Proof.
  rewrite maxUint64_val. intros H. unfold wrap64.
  apply Z.mod_small. change (2 ^ 64) with 18446744073709551616. lia.
Qed.

Lemma wrap64_over (x : Z) :
  maxUint64 < x < 2 * 18446744073709551616 ->
  wrap64 x = x - 18446744073709551616.
Proof.
  rewrite maxUint64_val. intros H. unfold wrap64.
  change (2 ^ 64) with 18446744073709551616.
  symmetry. apply (Z.mod_unique_pos _ _ 1); lia.
Qed.

(** What the loop of [ParseUint] computes at base 10: the value of the
    digits when it fits 64 bits; a syntax error only on a string that is not
    all digits; a range error only when there is no value that fits. *)
Lemma ParseUint_loop_spec (s0 s : string) (n : Z) :
  0 <= n <= maxUint64 ->
  match ParseUint_loop s0 10 n s with
  | (v, None) => digits_value n s = Some v /\ 0 <= v <= maxUint64
  | (x, Some e) =>
      (forall v, digits_value n s = Some v -> maxUint64 < v) /\
      (e = syntaxError "ParseUint" s0 /\ digits_value n s = None \/
       e = rangeError "ParseUint" s0 /\ x = maxUint64)
  end.
Proof.
  revert n; induction s as [|c s IH]; intros n Hn;
    cbn [ParseUint_loop digits_value].
  - split; [reflexivity | exact Hn].
  - destruct (is_digit c) eqn:Hd.
    + destruct (digit_val_digit c Hd) as [-> Hr].
      set (d := byte_val c - 48) in *.
      replace (10 <=? d) with false by (symmetry; apply Z.leb_gt; lia).
      rewrite cutoff10_val.
      destruct (1844674407370955162 <=? n) eqn:Hcut.
      * apply Z.leb_le in Hcut. split; [|right; split; reflexivity].
        intros v Hv. apply digits_value_ge in Hv; [|lia].
        rewrite maxUint64_val. lia.
      * apply Z.leb_gt in Hcut.
        rewrite (wrap64_small (n * 10)) by (rewrite maxUint64_val; lia).
        destruct (Z_le_gt_dec (n * 10 + d) maxUint64) as [Hfit|Hover].
        -- rewrite (wrap64_small (n * 10 + d)) by lia.
           replace (n * 10 + d <? n * 10) with false
             by (symmetry; apply Z.ltb_ge; lia).
           replace (maxUint64 <? n * 10 + d) with false
             by (symmetry; apply Z.ltb_ge; lia).
           cbn [orb]. apply IH. lia.
        -- rewrite (wrap64_over (n * 10 + d))
             by (rewrite maxUint64_val in *; lia).
           replace (n * 10 + d - 18446744073709551616 <? n * 10) with true
             by (symmetry; apply Z.ltb_lt; lia).
           cbn [orb]. split; [|right; split; reflexivity].
           intros v Hv. apply digits_value_ge in Hv; lia.
    + destruct (digit_val_other c Hd) as [-> | (d & -> & Hd10)].
      * split; [discriminate | left; split; reflexivity].
      * replace (10 <=? d) with true by (symmetry; apply Z.leb_le; lia).
        split; [discriminate | left; split; reflexivity].
Qed.

Lemma ParseUint_spec (s : string) :
  match ParseUint s with
  | (v, None) => unsigned_decimal s = Some v /\ 0 <= v <= maxUint64
  | (x, Some e) =>
      (forall v, unsigned_decimal s = Some v -> maxUint64 < v) /\
      (Err e = ErrSyntax \/ Err e = ErrRange /\ x = maxUint64)
  end.
Proof.
  destruct s as [|c r].
  - simpl. split; [discriminate | now left].
  - unfold ParseUint, unsigned_decimal.
    pose proof (ParseUint_loop_spec (String c r) (String c r) 0) as H.
    destruct (ParseUint_loop (String c r) 10 0 (String c r)) as [x [e|]].
    + destruct H as [Hv He]; [rewrite maxUint64_val; lia|].
      split; [exact Hv|].
      destruct He as [[-> _] | [-> ->]]; [now left | now right].
    + apply H. rewrite maxUint64_val; lia.
Qed.

Lemma ParseInt_sign (c : ascii) (r : string) :
  ParseInt (String c r) =
  ParseInt_unsigned (Ascii.eqb c "-") (String c r)
    (if Ascii.eqb c "+" || Ascii.eqb c "-" then r else String c r).
Proof. reflexivity. Qed.

Lemma ParseInt_unsigned_spec (neg : bool) (s0 t : string) (n : Z) :
  ParseInt_unsigned neg s0 t = (n, None) <->
  exists u, unsigned_decimal t = Some u /\
            n = (if neg then - u else u) /\ - 2 ^ 63 <= n < 2 ^ 63.
Proof.
  unfold ParseInt_unsigned. change (2 ^ 63) with 9223372036854775808.
  pose proof (ParseUint_spec t) as H. rewrite maxUint64_val in H.
  destruct (ParseUint t) as [un [[f nm k]|]].
  - destruct H as [Hbig Herr].
    assert (Hno : ~ exists u, unsigned_decimal t = Some u /\
                    n = (if neg then - u else u) /\
                    - 9223372036854775808 <= n < 9223372036854775808).
    { intros (u & Hu & -> & Hr). apply Hbig in Hu. destruct neg; lia. }
    destruct k.
    + split; [discriminate | intros Hex; now destruct Hno].
    + destruct Herr as [[=] | [_ ->]].
      destruct neg; cbn [negb andb];
        repeat match goal with
          | |- context [?a <=? ?b] => destruct (Z.leb_spec a b)
          | |- context [?a <? ?b] => destruct (Z.ltb_spec a b)
          end; try lia;
        (split; [discriminate | intros Hex; now destruct Hno]).
  - destruct H as [Hdec Hrange]. rewrite Hdec.
    destruct neg; cbn [negb andb];
      repeat match goal with
        | |- context [?a <=? ?b] => destruct (Z.leb_spec a b)
        | |- context [?a <? ?b] => destruct (Z.ltb_spec a b)
        end;
      (split;
       [ intros [= <-]; try (eexists; split; [reflexivity | split; [reflexivity | lia]])
       | intros (u & [= <-] & -> & Hr); try reflexivity; lia ]).
Qed.

(** [ParseInt] succeeds exactly on the decimal literals of the int64 range,
    and returns the integer the literal denotes. *)
Lemma ParseInt_spec (s : string) (n : Z) :
  ParseInt s = (n, None) <->
  decimal_int s = Some n /\ - 2 ^ 63 <= n < 2 ^ 63.
Proof.
  destruct s as [|c r]; [simpl; split; [discriminate | intros [[=] _]]|].
  rewrite ParseInt_sign, ParseInt_unsigned_spec. unfold decimal_int.
  destruct (Ascii.eqb c "+") eqn:Ep.
  - apply Ascii.eqb_eq in Ep. subst c.
    change (Ascii.eqb "+" "-") with false. cbn [orb]. split.
    + intros (u & Hu & -> & Hr). now split.
    + intros [Hu Hr]. exists n. now repeat split.
  - destruct (Ascii.eqb c "-"); cbn [orb]; split.
    + intros (u & Hu & -> & Hr). rewrite Hu. now split.
    + intros [Hu Hr]. destruct (unsigned_decimal r) as [u|]; [|discriminate].
      injection Hu as <-. exists u. now repeat split.
    + intros (u & Hu & -> & Hr). now split.
    + intros [Hu Hr]. exists n. now repeat split.
Qed.

(** A segment that is not a decimal literal does not parse. *)
Lemma ParseInt_not_decimal (s : string) :
  decimal_int s = None -> exists x e, ParseInt s = (x, Some e).
Proof.
  intros Hd. destruct (ParseInt s) as [x [e|]] eqn:E; [now exists x, e|].
  apply ParseInt_spec in E as [E _]. congruence.
Qed.

Lemma int_of_int64_id (n : Z) :
  - 2 ^ 63 <= n < 2 ^ 63 -> int_of_int64 n = n.
Proof.
  unfold int_of_int64, IntSize. change (64 - 1) with 63.
  change (2 ^ 63) with 9223372036854775808.
  change (2 ^ 64) with 18446744073709551616.
  intros H. rewrite Z.mod_small; lia.
Qed.

(** *** How the bootstrap runs *)

Lemma bind_Returned {A B} (a : A) (f : A -> Go B) :
  bind (Returned a, []) f = f a.
Proof. unfold bind. now destruct (f a). Qed.

Lemma bind_Panicked {A B} (v : panic_value) (l : list call) (f : A -> Go B) :
  bind (Panicked v, l) f = (Panicked v, l).
Proof. reflexivity. Qed.

(** [newConfig] by cases on the port segment and on what [ParseInt] makes of
    it. *)
Lemma newConfig_cases (selfEndpoint : string) (bootPeers : list string) :
  newConfig selfEndpoint bootPeers =
  match port_segment selfEndpoint with
  | None =>
      (Panicked
         (IndexOutOfRange 1 (List.length (strings_Split selfEndpoint ":"))), [])
  | Some seg =>
      match ParseInt seg with
      | (_, Some e) => (Panicked (PanicError (NumErr e)), [])
      | (port, None) =>
          (Returned {| BindPort := int_of_int64 port;
                       BootstrapPeers := bootPeers;
                       ID := selfEndpoint;
                       MaxMessageCountToStore := 100;
                       MaxPropagationBurstLatency := Millisecond * 50;
                       MaxPropagationBurstSize := 3;
                       PropagateIterations := 1;
                       PropagatePeerNum := 3;
                       PullInterval := Second * 5;
                       PullPeerNum := 3;
                       SelfEndpoint := selfEndpoint |}, [])
      end
  end.
Proof.
  unfold newConfig, index_string, port_segment.
  destruct (nth_error (strings_Split selfEndpoint ":") 1) as [seg|];
    [|reflexivity].
  unfold ret at 1. cbv iota. rewrite bind_Returned.
  now destruct (ParseInt seg) as [port [e|]].
Qed.

Lemma NewGossipComponent_aborts (endpoint : string) (s : Server)
  (bootPeers : list string) (v : panic_value) :
  newConfig endpoint bootPeers = (Panicked v, []) ->
  NewGossipComponent endpoint s bootPeers = (Panicked v, []).
Proof. unfold NewGossipComponent. now intros ->. Qed.

Lemma NewGossipComponent_continues (endpoint : string) (s : Server)
  (bootPeers : list string) (conf : Config) :
  newConfig endpoint bootPeers = (Returned conf, []) ->
  NewGossipComponent endpoint s bootPeers =
  (comm <- newComm endpoint s [WithInsecure] ;;
   g <- gossip_NewGossipService conf comm mk_naiveCryptoService
          (NewGossipCryptoService AliveMessage)
          (mkPeerIdentityType (bytes_of_string (ID conf))) ;;
   ret (g, comm)).
Proof. unfold NewGossipComponent. intros ->. now rewrite bind_Returned. Qed.

Lemma port_segment_host_port (host port : string) :
  contains_byte ":" host = false ->
  contains_byte ":" port = false ->
  port_segment (host ++ ":" ++ port) = Some port.
Proof.
  intros Hh Hp. unfold port_segment.
  change (host ++ ":" ++ port) with (host ++ String ":" port).
  now rewrite (strings_Split_app _ _ _ Hh), (strings_Split_no_sep _ _ Hp).
Qed.

Lemma port_segment_second (a b c : string) :
  contains_byte ":" a = false ->
  contains_byte ":" b = false ->
  port_segment (a ++ ":" ++ b ++ ":" ++ c) = Some b.
Proof.
  intros Ha Hb. unfold port_segment.
  change (a ++ ":" ++ b ++ ":" ++ c) with (a ++ String ":" (b ++ String ":" c)).
  now rewrite (strings_Split_app _ _ _ Ha), (strings_Split_app _ _ _ Hb).
Qed.

Lemma port_segment_missing (selfEndpoint : string) :
  port_segment selfEndpoint = None <-> contains_byte ":" selfEndpoint = false.
Proof. apply strings_Split_index1_None. Qed.

(** *** The crypto services *)

(** C6: [IsEnabled] is false on the disabled variant
    ([naiveCryptoServiceImpl], also when called through the interface value
    that [NewGossipCryptoService] returns) and true on the always-valid
    variant ([naiveCryptoService]); the receivers are empty structs and the
    methods take nothing else, so no other call or state enters. *)
Theorem IsEnabled_of_variants :
  (forall cs : naiveCryptoServiceImpl, naiveCryptoServiceImpl_IsEnabled cs = false) /\
  (forall cs : naiveCryptoServiceImpl, IsEnabled (AliveMessage := AliveMessage) cs = false) /\
  Value_IsEnabled (NewGossipCryptoService AliveMessage) = false /\
  (forall cs : naiveCryptoService, naiveCryptoService_IsEnabled cs = true).
Proof. repeat split. Qed.

(** C3: in both variants and for every identity, [Verify] returns nil
    exactly when the signature equals the message; when they differ it
    returns the wrong-signature error (in [naiveCryptoService] the error
    carrying both operands). *)
Theorem Verify_succeeds_iff_equal
  (cs : naiveCryptoServiceImpl) (cs' : naiveCryptoService)
  (vkID : bytes) (peerIdentity : PeerIdentityType) (s m : bytes) :
  (naiveCryptoServiceImpl_Verify cs vkID s m = None <-> s = m) /\
  (naiveCryptoService_Verify cs' peerIdentity s m = None <-> s = m) /\
  (s <> m ->
   naiveCryptoServiceImpl_Verify cs vkID s m = Some (Errorf "Wrong signature" []) /\
   naiveCryptoService_Verify cs' peerIdentity s m =
     Some (Errorf "Wrong signature:%v, %v" [s; m])).
Proof.
  unfold naiveCryptoServiceImpl_Verify, naiveCryptoService_Verify.
  destruct (bytes_Equal s m) eqn:E; cbn [negb].
  - apply bytes_Equal_eq in E.
    split; [tauto | split; [tauto | intros Hne; contradiction]].
  - assert (Hne : s <> m).
    { intros Heq. apply bytes_Equal_eq in Heq. congruence. }
    split; [|split]; [split | split | split];
      try discriminate; try contradiction; reflexivity.
Qed.

(** C5: on every triple the two variants decide alike (both nil or both an
    error), and neither decision depends on the identity argument. *)
Theorem Verify_variants_agree
  (cs : naiveCryptoServiceImpl) (cs' : naiveCryptoService)
  (vkID vkID' : bytes) (peerIdentity peerIdentity' : PeerIdentityType)
  (signature message : bytes) :
  (naiveCryptoServiceImpl_Verify cs vkID signature message = None <->
   naiveCryptoService_Verify cs' peerIdentity signature message = None) /\
  naiveCryptoServiceImpl_Verify cs vkID signature message =
    naiveCryptoServiceImpl_Verify cs vkID' signature message /\
  naiveCryptoService_Verify cs' peerIdentity signature message =
    naiveCryptoService_Verify cs' peerIdentity' signature message.
Proof.
  unfold naiveCryptoServiceImpl_Verify, naiveCryptoService_Verify.
  destruct (bytes_Equal signature message); cbn [negb];
    repeat split; intros; congruence.
Qed.

(** C7: in both variants [Sign] returns its argument and a nil error,
    [ValidateAliveMsg] returns true and [SignMessage] returns the message it
    was given. *)
Theorem Sign_and_alive_messages
  (cs : naiveCryptoServiceImpl) (cs' : naiveCryptoService)
  (m : bytes) (am : AliveMessage) :
  naiveCryptoServiceImpl_Sign cs m = (m, None) /\
  naiveCryptoService_Sign cs' m = (m, None) /\
  naiveCryptoServiceImpl_ValidateAliveMsg cs am = true /\
  naiveCryptoService_ValidateAliveMsg cs' am = true /\
  naiveCryptoServiceImpl_SignMessage cs am = am /\
  naiveCryptoService_SignMessage cs' am = am.
Proof. repeat split. Qed.

(** C8: the PKI-id that [GetPKIidOfCert] returns has the bytes of the
    identity it was given. *)
Theorem GetPKIidOfCert_bytes
  (cs : naiveCryptoService) (peerIdentity : PeerIdentityType) :
  pkiID_bytes (naiveCryptoService_GetPKIidOfCert cs peerIdentity) =
  peerIdentity_bytes peerIdentity.
Proof. reflexivity. Qed.

(** *** The configuration *)

(** C2: when the port segment of [selfEndpoint] parses, with value [n] (the
    integer its decimal literal denotes), [newConfig] returns the
    configuration with [BindPort] [n], [ID] and [SelfEndpoint] the endpoint,
    [BootstrapPeers] the peers as given and the fixed defaults, and the
    bootstrap goes on with that configuration. *)
Theorem newConfig_of_wellformed
  (selfEndpoint port : string) (n : Z) (bootPeers : list string) (s : Server) :
  port_segment selfEndpoint = Some port ->
  ParseInt port = (n, None) ->
  let conf :=
    {| BindPort := n;
       BootstrapPeers := bootPeers;
       ID := selfEndpoint;
       MaxMessageCountToStore := 100;
       MaxPropagationBurstLatency := 50 * Millisecond;
       MaxPropagationBurstSize := 3;
       PropagateIterations := 1;
       PropagatePeerNum := 3;
       PullInterval := 5 * Second;
       PullPeerNum := 3;
       SelfEndpoint := selfEndpoint |} in
  decimal_int port = Some n /\
  newConfig selfEndpoint bootPeers = (Returned conf, []) /\
  NewGossipComponent selfEndpoint s bootPeers =
    (comm <- newComm selfEndpoint s [WithInsecure] ;;
     g <- gossip_NewGossipService conf comm mk_naiveCryptoService
            (NewGossipCryptoService AliveMessage)
            (mkPeerIdentityType (bytes_of_string selfEndpoint)) ;;
     ret (g, comm)).
Proof.
  intros Hseg Hparse conf.
  pose proof (proj1 (ParseInt_spec _ _) Hparse) as [Hdec Hrange].
  assert (Hconf : newConfig selfEndpoint bootPeers = (Returned conf, [])).
  { rewrite newConfig_cases, Hseg, Hparse, (int_of_int64_id _ Hrange).
    reflexivity. }
  split; [exact Hdec | split; [exact Hconf|]].
  now rewrite (NewGossipComponent_continues _ s _ _ Hconf).
Qed.

(** C4: when the port segment of the endpoint is missing or is not a decimal
    literal, [newConfig] panics, and so does the bootstrap, with no
    configuration, no handle returned and no constructor of a collaborator
    called. *)
Theorem bootstrap_aborts_on_malformed
  (endpoint : string) (s : Server) (bootPeers : list string) :
  port_segment endpoint = None \/
  (exists seg, port_segment endpoint = Some seg /\ decimal_int seg = None) ->
  exists v,
    newConfig endpoint bootPeers = (Panicked v, []) /\
    NewGossipComponent endpoint s bootPeers = (Panicked v, []).
Proof.
  intros Hbad.
  assert (H : exists v, newConfig endpoint bootPeers = (Panicked v, [])).
  { rewrite newConfig_cases.
    destruct Hbad as [-> | (seg & -> & Hdec)]; [eexists; reflexivity|].
    destruct (ParseInt_not_decimal _ Hdec) as (x & e & ->).
    eexists; reflexivity. }
  destruct H as [v Hv]. exists v. split; [exact Hv|].
  now apply NewGossipComponent_aborts.
Qed.

(** C9: on an endpoint without [":"], the split has one element, the index
    expression panics with index 1 out of range for length 1, and that is the
    panic of the bootstrap: not the error of [ParseInt], and nothing was
    called. *)
Theorem bootstrap_without_separator
  (endpoint : string) (s : Server) (bootPeers : list string) :
  contains_byte ":" endpoint = false ->
  strings_Split endpoint ":" = [endpoint] /\
  newConfig endpoint bootPeers = (Panicked (IndexOutOfRange 1 1), []) /\
  NewGossipComponent endpoint s bootPeers = (Panicked (IndexOutOfRange 1 1), []) /\
  (forall e, NewGossipComponent endpoint s bootPeers <>
             (Panicked (PanicError (NumErr e)), [])).
Proof.
  intros Hno.
  pose proof (strings_Split_no_sep _ _ Hno) as Hsplit.
  assert (Hc : newConfig endpoint bootPeers = (Panicked (IndexOutOfRange 1 1), [])).
  { rewrite newConfig_cases. unfold port_segment. now rewrite Hsplit. }
  pose proof (NewGossipComponent_aborts _ s _ _ Hc) as Hb.
  repeat split; auto. intros e. rewrite Hb. discriminate.
Qed.

(** C10: on an endpoint with two separators or more, [a:b:c] with no
    separator in [a] and [b], the port is read from [b]: the configuration
    has the value of [b] as bind port whatever [c] is, and the panic is the
    error of [ParseInt] on [b]. *)
Theorem newConfig_reads_second_segment
  (a b c : string) (bootPeers : list string) :
  contains_byte ":" a = false ->
  contains_byte ":" b = false ->
  match ParseInt b with
  | (n, None) =>
      exists conf,
        newConfig (a ++ ":" ++ b ++ ":" ++ c) bootPeers = (Returned conf, []) /\
        BindPort conf = n
  | (_, Some e) =>
      newConfig (a ++ ":" ++ b ++ ":" ++ c) bootPeers =
      (Panicked (PanicError (NumErr e)), [])
  end.
Proof.
  intros Ha Hb. rewrite newConfig_cases, (port_segment_second _ _ c Ha Hb).
  destruct (ParseInt b) as [n [e|]] eqn:E; [reflexivity|].
  apply ParseInt_spec in E as [_ Hr].
  eexists; split; [reflexivity|]. now apply int_of_int64_id.
Qed.

(** *** The communication handle *)

(** C1, as the code has it: [newComm] calls [comm.NewCommInstance] with the
    value that [NewGossipCryptoService] returns, which is a
    [naiveCryptoServiceImpl], the variant whose [IsEnabled] is false, and with
    the bytes of the endpoint as self-identity; once [newConfig] has
    returned, that is the first call of the bootstrap and its only call to
    [comm.NewCommInstance]. *)
Theorem newComm_security_provider
  (endpoint : string) (s : Server) (bootPeers : list string) (conf : Config) :
  newConfig endpoint bootPeers = (Returned conf, []) ->
  let sec := NewGossipCryptoService AliveMessage in
  dynamic_type AliveMessage sec = naiveCryptoServiceImpl /\
  Value_IsEnabled sec = false /\
  snd (newComm endpoint s [WithInsecure]) =
    [Call_NewCommInstance s sec (bytes_of_string endpoint) [WithInsecure]] /\
  exists rest,
    snd (NewGossipComponent endpoint s bootPeers) =
      Call_NewCommInstance s sec (bytes_of_string endpoint) [WithInsecure] :: rest /\
    forall s' sec' id' opts', ~ In (Call_NewCommInstance s' sec' id' opts') rest.
Proof.
  intros Hconf sec. split; [reflexivity | split; [reflexivity|]].
  rewrite (NewGossipComponent_continues _ s _ _ Hconf).
  unfold newComm, comm_NewCommInstance, gossip_NewGossipService, bind,
    record_call, ret, panic.
  destruct (NewCommInstance s (NewGossipCryptoService AliveMessage)
              (bytes_of_string endpoint) [WithInsecure]) as [c [e|]]; cbn.
  - split; [reflexivity|]. exists []. split; [reflexivity|]. intros; tauto.
  - split; [reflexivity|]. eexists. split; [reflexivity|].
    intros s' sec' id' opts' [H | []]. discriminate H.
Qed.

(** *** More on the standard-library models *)

Lemma bytes_Equal_sym (a b : bytes) : bytes_Equal a b = bytes_Equal b a.
Proof.
  destruct (bytes_Equal a b) eqn:E; symmetry.
  - apply bytes_Equal_eq in E. subst. apply bytes_Equal_refl.
  - apply bytes_Equal_neq. intros ->. now rewrite bytes_Equal_refl in E.
Qed.

Lemma bytes_of_string_inj (a b : string) :
  bytes_of_string a = bytes_of_string b -> a = b.
Proof.
  unfold bytes_of_string. intros H.
  rewrite <- (string_of_list_byte_of_string a),
          <- (string_of_list_byte_of_string b).
  now rewrite H.
Qed.

(** A string up to its first separator, when it has one. *)
Lemma first_separator (s : string) (sep : ascii) :
  exists a, contains_byte sep a = false /\
            (s = a \/ exists b, s = a ++ String sep b).
Proof.
  induction s as [|c s (a & Ha & IH)].
  - exists "". split; [reflexivity | now left].
  - destruct (Ascii.eqb c sep) eqn:E.
    + apply Ascii.eqb_eq in E. subst c.
      exists "". split; [reflexivity | right; now exists s].
    + exists (String c a). split; [simpl; now rewrite E, Ha|].
      destruct IH as [-> | (b & ->)]; [now left | right; now exists b].
Qed.

Lemma ParseUint_syntax_error (s : string) (x : Z) (e : NumError) :
  ParseUint s = (x, Some e) -> Err e = ErrSyntax -> unsigned_decimal s = None.
Proof.
  destruct s as [|c r]; [reflexivity|].
  unfold ParseUint, unsigned_decimal.
  pose proof (ParseUint_loop_spec (String c r) (String c r) 0) as H.
  intros E Hsyn. rewrite E in H.
  destruct H as [_ [[_ Hnone] | [-> _]]];
    [rewrite maxUint64_val; lia | exact Hnone | discriminate Hsyn].
Qed.

Lemma decimal_int_sign (c : ascii) (r : string) :
  decimal_int (String c r) =
  (if Ascii.eqb c "-" then option_map Z.opp else fun o => o)
    (unsigned_decimal
       (if Ascii.eqb c "+" || Ascii.eqb c "-" then r else String c r)).
Proof.
  unfold decimal_int. destruct (Ascii.eqb c "+") eqn:Ep.
  - apply Ascii.eqb_eq in Ep. now subst c.
  - now destruct (Ascii.eqb c "-").
Qed.

(** An error of [ParseInt] names the function and the whole argument; it is
    a syntax error only on what is no decimal literal, and on a literal it is
    a range error. *)
Lemma ParseInt_error (s : string) (x : Z) (e : NumError) :
  ParseInt s = (x, Some e) ->
  Func e = "ParseInt" /\ Num e = s /\
  (Err e = ErrSyntax -> decimal_int s = None) /\
  (forall n, decimal_int s = Some n ->
             Err e = ErrRange /\ ~ (- 2 ^ 63 <= n < 2 ^ 63)).
Proof.
  intros E.
  assert (Hshape : Func e = "ParseInt" /\ Num e = s /\
                   (Err e = ErrSyntax -> decimal_int s = None)).
  { destruct s as [|c r]; [injection E as _ <-; now repeat split|].
    rewrite ParseInt_sign in E. rewrite decimal_int_sign.
    unfold ParseInt_unsigned in E.
    destruct (ParseUint _) as [un [[f nm k]|]] eqn:EU.
    - destruct k.
      + injection E as _ <-. repeat split.
        intros _. rewrite (ParseUint_syntax_error _ _ _ EU eq_refl).
        now destruct (Ascii.eqb c "-").
      + destruct (negb _ && _); [|destruct (_ && _)];
          try discriminate E; injection E as _ <-;
          (repeat split; discriminate).
    - destruct (negb _ && _); [|destruct (_ && _)];
        try discriminate E; injection E as _ <-;
        (repeat split; discriminate). }
  destruct Hshape as (Hf & Hn & Hsyn). repeat split; auto.
  - destruct (Err e); [|reflexivity].
    rewrite (Hsyn eq_refl) in H. discriminate H.
  - intros Hr. assert (ParseInt s = (n, None)) by now apply ParseInt_spec.
    congruence.
Qed.

(** The element after the first separator runs to the next separator or to
    the end. *)
Lemma strings_Split_head (s : string) (sep : ascii) :
  exists a, contains_byte sep a = false /\
    ((s = a /\ strings_Split s sep = [a]) \/
     (exists b, s = a ++ String sep b /\
                strings_Split s sep = a :: strings_Split b sep)).
Proof.
  destruct (first_separator s sep) as (a & Ha & [-> | (b & ->)]);
    exists a; (split; [exact Ha|]).
  - left. split; [reflexivity | now apply strings_Split_no_sep].
  - right. exists b. split; [reflexivity | now apply strings_Split_app].
Qed.

(** [newConfig] makes no call. *)
Lemma newConfig_no_call (selfEndpoint : string) (bootPeers : list string) :
  snd (newConfig selfEndpoint bootPeers) = [].
Proof.
  rewrite newConfig_cases.
  destruct (port_segment selfEndpoint) as [seg|]; [|reflexivity].
  now destruct (ParseInt seg) as [port [e|]].
Qed.

(** What [newConfig] puts in the fields it copies. *)
Lemma newConfig_copies (selfEndpoint : string) (bootPeers : list string)
  (conf : Config) :
  newConfig selfEndpoint bootPeers = (Returned conf, []) ->
  ID conf = selfEndpoint /\ SelfEndpoint conf = selfEndpoint /\
  BootstrapPeers conf = bootPeers.
Proof.
  rewrite newConfig_cases.
  destruct (port_segment selfEndpoint) as [seg|]; [|discriminate].
  destruct (ParseInt seg) as [port [e|]]; [discriminate|].
  intros [= <-]. now repeat split.
Qed.

(** The bootstrap by cases: on the configuration, then on what
    [comm.NewCommInstance] returns. *)
Lemma NewGossipComponent_cases (endpoint : string) (s : Server)
  (bootPeers : list string) :
  NewGossipComponent endpoint s bootPeers =
  match newConfig endpoint bootPeers with
  | (Panicked v, _) => (Panicked v, [])
  | (Returned conf, _) =>
      let sec := NewGossipCryptoService AliveMessage in
      let selfIdentity := bytes_of_string endpoint in
      let first := Call_NewCommInstance s sec selfIdentity [WithInsecure] in
      match NewCommInstance s sec selfIdentity [WithInsecure] with
      | (_, Some e) => (Panicked (PanicError e), [first])
      | (c, None) =>
          let id := mkPeerIdentityType (bytes_of_string (ID conf)) in
          (Returned (NewGossipService conf c mk_naiveCryptoService sec id, c),
           [first; Call_NewGossipService conf c mk_naiveCryptoService sec id])
      end
  end.
Proof.
  pose proof (newConfig_no_call endpoint bootPeers) as Hlog.
  destruct (newConfig endpoint bootPeers) as [[conf|v] l] eqn:E;
    simpl in Hlog; subst l.
  - rewrite (NewGossipComponent_continues _ s _ _ E).
    unfold newComm, comm_NewCommInstance, gossip_NewGossipService, bind,
      record_call, ret, panic. cbv zeta.
    now destruct (NewCommInstance s (NewGossipCryptoService AliveMessage)
                    (bytes_of_string endpoint) [WithInsecure]) as [c [e|]].
  - now apply NewGossipComponent_aborts.
Qed.

(** *** Further properties of the crypto services *)

(** X1: what [Sign] returns for a message verifies against a message exactly
    when it is that message, in each variant and across the two, also through
    the interface. *)
Theorem Sign_then_Verify
  (cs : naiveCryptoServiceImpl) (cs' : naiveCryptoService)
  (vkID : bytes) (peerIdentity : PeerIdentityType) (m m' : bytes) :
  (naiveCryptoServiceImpl_Verify cs vkID
     (fst (naiveCryptoServiceImpl_Sign cs m)) m' = None <-> m = m') /\
  (naiveCryptoService_Verify cs' peerIdentity
     (fst (naiveCryptoService_Sign cs' m)) m' = None <-> m = m') /\
  (naiveCryptoService_Verify cs' peerIdentity
     (fst (naiveCryptoServiceImpl_Sign cs m)) m' = None <-> m = m') /\
  (naiveCryptoServiceImpl_Verify cs vkID
     (fst (naiveCryptoService_Sign cs' m)) m' = None <-> m = m') /\
  (Verify (AliveMessage := AliveMessage) cs vkID
     (fst (Sign (AliveMessage := AliveMessage) cs m)) m' = None <-> m = m').
Proof.
  cbn [Verify Sign naiveCryptoServiceImpl_GossipCryptoService
       naiveCryptoServiceImpl_Sign naiveCryptoService_Sign fst].
  unfold naiveCryptoServiceImpl_Verify, naiveCryptoService_Verify.
  destruct (bytes_Equal m m') eqn:E; cbn [negb].
  - apply bytes_Equal_eq in E. tauto.
  - assert (Hne : m <> m').
    { intros Heq. apply bytes_Equal_eq in Heq. congruence. }
    repeat split; solve [discriminate | contradiction].
Qed.

(** X2: [Verify] does not tell the signature from the message: with the two
    exchanged it decides alike. *)
Theorem Verify_symmetric
  (cs : naiveCryptoServiceImpl) (cs' : naiveCryptoService)
  (vkID : bytes) (peerIdentity : PeerIdentityType) (s m : bytes) :
  (naiveCryptoServiceImpl_Verify cs vkID s m = None <->
   naiveCryptoServiceImpl_Verify cs vkID m s = None) /\
  (naiveCryptoService_Verify cs' peerIdentity s m = None <->
   naiveCryptoService_Verify cs' peerIdentity m s = None).
Proof.
  unfold naiveCryptoServiceImpl_Verify, naiveCryptoService_Verify.
  rewrite (bytes_Equal_sym m s).
  destruct (bytes_Equal s m); cbn [negb]; split; split;
    solve [reflexivity | discriminate].
Qed.

(** X3: identities of different bytes get different PKI-ids, and so do the
    self-identities of nodes with different endpoints. *)
Theorem GetPKIidOfCert_injective
  (cs : naiveCryptoService) (a b : PeerIdentityType) (e1 e2 : string) :
  (naiveCryptoService_GetPKIidOfCert cs a =
   naiveCryptoService_GetPKIidOfCert cs b <-> a = b) /\
  (naiveCryptoService_GetPKIidOfCert cs (mkPeerIdentityType (bytes_of_string e1)) =
   naiveCryptoService_GetPKIidOfCert cs (mkPeerIdentityType (bytes_of_string e2))
   <-> e1 = e2).
Proof.
  unfold naiveCryptoService_GetPKIidOfCert. split; split.
  - destruct a, b. cbn. now intros [= ->].
  - now intros ->.
  - cbn. intros [= H]. now apply bytes_of_string_inj.
  - now intros ->.
Qed.

(** *** Further properties of the configuration *)

(** X4: the port segment is the text between the first separator and the
    next one, or the end of the endpoint when there is no other. *)
Theorem port_segment_iff (selfEndpoint p : string) :
  port_segment selfEndpoint = Some p <->
  exists host,
    contains_byte ":" host = false /\ contains_byte ":" p = false /\
    (selfEndpoint = host ++ ":" ++ p \/
     exists rest, selfEndpoint = host ++ ":" ++ p ++ ":" ++ rest).
Proof.
  split.
  - unfold port_segment.
    destruct (strings_Split_head selfEndpoint ":")
      as (host & Hh & [[_ ->] | (b & -> & ->)]); [discriminate|].
    cbn [nth_error].
    destruct (strings_Split_head b ":")
      as (q & Hq & [[-> ->] | (rest & -> & ->)]);
      intros [= <-]; exists host; (split; [exact Hh | split; [exact Hq|]]).
    + now left.
    + right. now exists rest.
  - intros (host & Hh & Hp & [-> | (rest & ->)]).
    + now apply port_segment_host_port.
    + now apply port_segment_second.
Qed.

(** X5: [newConfig] returns exactly when the endpoint has a port segment
    that is a decimal literal of the int64 range, and then the bind port is
    the integer of the literal; ports are not restricted further. *)
Theorem newConfig_returns_iff
  (selfEndpoint : string) (bootPeers : list string) (conf : Config) :
  newConfig selfEndpoint bootPeers = (Returned conf, []) <->
  exists seg n,
    port_segment selfEndpoint = Some seg /\ decimal_int seg = Some n /\
    - 2 ^ 63 <= n < 2 ^ 63 /\
    conf = {| BindPort := n;
              BootstrapPeers := bootPeers;
              ID := selfEndpoint;
              MaxMessageCountToStore := 100;
              MaxPropagationBurstLatency := 50 * Millisecond;
              MaxPropagationBurstSize := 3;
              PropagateIterations := 1;
              PropagatePeerNum := 3;
              PullInterval := 5 * Second;
              PullPeerNum := 3;
              SelfEndpoint := selfEndpoint |}.
Proof.
  rewrite newConfig_cases. split.
  - destruct (port_segment selfEndpoint) as [seg|]; [|discriminate].
    destruct (ParseInt seg) as [port [e|]] eqn:E; [discriminate|].
    apply ParseInt_spec in E as [Hdec Hr].
    rewrite (int_of_int64_id _ Hr). intros [= <-].
    exists seg, port. now repeat split.
  - intros (seg & n & -> & Hdec & Hr & ->).
    rewrite (proj2 (ParseInt_spec seg n) (conj Hdec Hr)).
    now rewrite (int_of_int64_id _ Hr).
Qed.

(** X6: the panics of [newConfig] are two: the index error, on an endpoint
    without separator, and the error of [ParseInt], which names [ParseInt]
    and the port segment (not the endpoint), is a syntax error only on a
    segment that is no decimal literal, and on a literal is a range error. *)
Theorem newConfig_panic_value
  (selfEndpoint : string) (bootPeers : list string) (v : panic_value) :
  newConfig selfEndpoint bootPeers = (Panicked v, []) ->
  (v = IndexOutOfRange 1 1 /\ contains_byte ":" selfEndpoint = false) \/
  (exists seg e,
     port_segment selfEndpoint = Some seg /\
     v = PanicError (NumErr e) /\
     Func e = "ParseInt" /\ Num e = seg /\
     (Err e = ErrSyntax -> decimal_int seg = None) /\
     (forall n, decimal_int seg = Some n ->
                Err e = ErrRange /\ ~ (- 2 ^ 63 <= n < 2 ^ 63))).
Proof.
  rewrite newConfig_cases.
  destruct (port_segment selfEndpoint) as [seg|] eqn:Hseg.
  - destruct (ParseInt seg) as [port [e|]] eqn:E; [|discriminate].
    intros [= <-]. right. exists seg, e.
    split; [reflexivity | split; [reflexivity|]].
    exact (ParseInt_error _ _ _ E).
  - apply port_segment_missing in Hseg.
    rewrite (strings_Split_no_sep _ _ Hseg). intros [= <-]. now left.
Qed.

(** X7: the bootstrap peers are not looked at: with other peers [newConfig]
    panics with the same value, or returns a configuration that differs in
    [BootstrapPeers] only. *)
Theorem newConfig_ignores_peers
  (selfEndpoint : string) (peers peers' : list string) :
  match newConfig selfEndpoint peers, newConfig selfEndpoint peers' with
  | (Panicked v, _), (Panicked v', _) => v = v'
  | (Returned conf, _), (Returned conf', _) =>
      BootstrapPeers conf = peers /\ BootstrapPeers conf' = peers' /\
      conf' = {| BindPort := BindPort conf;
                 BootstrapPeers := peers';
                 ID := ID conf;
                 MaxMessageCountToStore := MaxMessageCountToStore conf;
                 MaxPropagationBurstLatency := MaxPropagationBurstLatency conf;
                 MaxPropagationBurstSize := MaxPropagationBurstSize conf;
                 PropagateIterations := PropagateIterations conf;
                 PropagatePeerNum := PropagatePeerNum conf;
                 PullInterval := PullInterval conf;
                 PullPeerNum := PullPeerNum conf;
                 SelfEndpoint := SelfEndpoint conf |}
  | _, _ => False
  end.
Proof.
  rewrite !newConfig_cases.
  destruct (port_segment selfEndpoint) as [seg|]; [|reflexivity].
  destruct (ParseInt seg) as [port [e|]]; [reflexivity | now repeat split].
Qed.

(** X8: a sign before the digits is taken: for a host without separator and
    digits of value [n] below [2 ^ 63], the port [+digits] gives bind port
    [n] and the port [-digits] gives bind port [- n]; a negative port is not
    refused. *)
Theorem newConfig_signed_port
  (host digits : string) (n : Z) (bootPeers : list string) :
  contains_byte ":" host = false ->
  unsigned_decimal digits = Some n ->
  n < 2 ^ 63 ->
  (exists conf,
     newConfig (host ++ ":+" ++ digits) bootPeers = (Returned conf, []) /\
     BindPort conf = n) /\
  (exists conf,
     newConfig (host ++ ":-" ++ digits) bootPeers = (Returned conf, []) /\
     BindPort conf = - n).
Proof.
  intros Hh Hd Hn.
  assert (H0 : 0 <= n).
  { destruct digits as [|c r]; [discriminate|].
    unfold unsigned_decimal in Hd. apply digits_value_ge in Hd; lia. }
  assert (Hplus : decimal_int (String "+" digits) = Some n) by exact Hd.
  assert (Hminus : decimal_int (String "-" digits) = Some (- n)).
  { cbn. now rewrite Hd. }
  assert (Hr : - 2 ^ 63 <= n < 2 ^ 63 /\ - 2 ^ 63 <= - n < 2 ^ 63) by lia.
  destruct Hr as [Hr Hr'].
  split.
  - change (host ++ ":+" ++ digits) with (host ++ ":" ++ String "+" digits).
    rewrite newConfig_cases,
      (port_segment_host_port _ _ Hh (decimal_int_no_colon _ _ Hplus)),
      (proj2 (ParseInt_spec _ n) (conj Hplus Hr)), (int_of_int64_id _ Hr).
    eexists; split; reflexivity.
  - change (host ++ ":-" ++ digits) with (host ++ ":" ++ String "-" digits).
    rewrite newConfig_cases,
      (port_segment_host_port _ _ Hh (decimal_int_no_colon _ _ Hminus)),
      (proj2 (ParseInt_spec _ (- n)) (conj Hminus Hr')), (int_of_int64_id _ Hr').
    eexists; split; reflexivity.
Qed.

(** *** Further properties of the bootstrap *)

(** X9: the bootstrap returns exactly when [newConfig] returns and
    [comm.NewCommInstance] gives no error; it then returns the handle of
    [comm.NewCommInstance] and the gossip service made from the
    configuration, that handle, a [naiveCryptoService], the value of
    [NewGossipCryptoService] and the bytes of the endpoint as identity, after
    these two calls in this order. *)
Theorem NewGossipComponent_returns_iff
  (endpoint : string) (s : Server) (bootPeers : list string)
  (g : Gossip) (c : Comm) (l : list call) :
  NewGossipComponent endpoint s bootPeers = (Returned (g, c), l) <->
  exists conf,
    let sec := NewGossipCryptoService AliveMessage in
    let id := mkPeerIdentityType (bytes_of_string endpoint) in
    newConfig endpoint bootPeers = (Returned conf, []) /\
    NewCommInstance s sec (bytes_of_string endpoint) [WithInsecure] = (c, None) /\
    g = NewGossipService conf c mk_naiveCryptoService sec id /\
    l = [Call_NewCommInstance s sec (bytes_of_string endpoint) [WithInsecure];
         Call_NewGossipService conf c mk_naiveCryptoService sec id].
Proof.
  rewrite NewGossipComponent_cases. cbv zeta.
  pose proof (newConfig_no_call endpoint bootPeers) as Hlog.
  pose proof (newConfig_copies endpoint bootPeers) as Hcopy.
  destruct (newConfig endpoint bootPeers) as [[conf|v] l0];
    simpl in Hlog; subst l0.
  - destruct (Hcopy conf eq_refl) as (Hid & _). rewrite Hid.
    destruct (NewCommInstance s (NewGossipCryptoService AliveMessage)
                (bytes_of_string endpoint) [WithInsecure]) as [c0 [e|]].
    + split; [discriminate | intros (conf' & _ & [=] & _)].
    + split.
      * intros [= <- <- <-]. exists conf. now repeat split.
      * intros (conf' & [= <-] & [= <-] & -> & ->). reflexivity.
  - split; [discriminate | intros (conf' & [=] & _)].
Qed.

(** X10: the bootstrap panics in two ways only: with the panic of
    [newConfig], before any call, or with the error that
    [comm.NewCommInstance] returned, after that one call. *)
Theorem NewGossipComponent_panics_iff
  (endpoint : string) (s : Server) (bootPeers : list string)
  (v : panic_value) (l : list call) :
  NewGossipComponent endpoint s bootPeers = (Panicked v, l) <->
  (newConfig endpoint bootPeers = (Panicked v, []) /\ l = []) \/
  (exists conf c e,
     let sec := NewGossipCryptoService AliveMessage in
     newConfig endpoint bootPeers = (Returned conf, []) /\
     NewCommInstance s sec (bytes_of_string endpoint) [WithInsecure] =
       (c, Some e) /\
     v = PanicError e /\
     l = [Call_NewCommInstance s sec (bytes_of_string endpoint) [WithInsecure]]).
Proof.
  rewrite NewGossipComponent_cases. cbv zeta.
  pose proof (newConfig_no_call endpoint bootPeers) as Hlog.
  destruct (newConfig endpoint bootPeers) as [[conf|v0] l0];
    simpl in Hlog; subst l0.
  - destruct (NewCommInstance s (NewGossipCryptoService AliveMessage)
                (bytes_of_string endpoint) [WithInsecure]) as [c0 [e|]].
    + split.
      * intros [= <- <-]. right. exists conf, c0, e. now repeat split.
      * intros [[[=] _] | (conf' & c' & e' & _ & [= <- <-] & -> & ->)].
        reflexivity.
    + split; [discriminate|].
      intros [[[=] _] | (conf' & c' & e' & _ & [=] & _)].
  - split.
    + intros [= <- <-]. now left.
    + intros [[[= <-] ->] | (conf' & c' & e' & [=] & _)]. reflexivity.
Qed.

(** X11: whatever the endpoint and the collaborators, the bootstrap makes
    two calls at most, and when it panics it has not called
    [gossip.NewGossipService]. *)
Theorem bootstrap_no_service_on_panic
  (endpoint : string) (s : Server) (bootPeers : list string) :
  (List.length (snd (NewGossipComponent endpoint s bootPeers)) <= 2)%nat /\
  forall v conf c crypto sec id,
    fst (NewGossipComponent endpoint s bootPeers) = Panicked v ->
    ~ In (Call_NewGossipService conf c crypto sec id)
         (snd (NewGossipComponent endpoint s bootPeers)).
Proof.
  rewrite NewGossipComponent_cases. cbv zeta.
  destruct (newConfig endpoint bootPeers) as [[conf|v0] l0].
  - destruct (NewCommInstance s (NewGossipCryptoService AliveMessage)
                (bytes_of_string endpoint) [WithInsecure]) as [c0 [e|]];
      (split; [simpl; lia|]); cbn [fst snd];
      intros v conf' c crypto sec id Hp.
    + intros [H | []]. discriminate H.
    + discriminate Hp.
  - split; [simpl; lia|]. intros v conf' c crypto sec id _ [].
Qed.

(** X12: when the bootstrap calls both constructors, the gossip service
    gets the identity whose bytes the communication layer got as
    self-identity, which are the bytes of the endpoint and of the
    configuration's [ID], and whose PKI-id has these bytes; both get the same
    security provider value. *)
Theorem bootstrap_same_identity
  (endpoint : string) (s s' : Server) (bootPeers : list string)
  (sec sec' : GossipCryptoServiceValue AliveMessage)
  (selfIdentity : bytes) (dialOpts : list DialOption)
  (conf : Config) (c : Comm) (crypto : naiveCryptoService)
  (id : PeerIdentityType) :
  In (Call_NewCommInstance s' sec selfIdentity dialOpts)
     (snd (NewGossipComponent endpoint s bootPeers)) ->
  In (Call_NewGossipService conf c crypto sec' id)
     (snd (NewGossipComponent endpoint s bootPeers)) ->
  peerIdentity_bytes id = selfIdentity /\
  selfIdentity = bytes_of_string endpoint /\
  selfIdentity = bytes_of_string (ID conf) /\
  pkiID_bytes (naiveCryptoService_GetPKIidOfCert crypto id) = selfIdentity /\
  sec' = sec /\ s' = s /\
  fst (NewCommInstance s sec selfIdentity dialOpts) = c.
Proof.
  rewrite NewGossipComponent_cases. cbv zeta.
  pose proof (newConfig_no_call endpoint bootPeers) as Hlog.
  pose proof (newConfig_copies endpoint bootPeers) as Hcopy.
  destruct (newConfig endpoint bootPeers) as [[conf0|v0] l0];
    simpl in Hlog; subst l0; [|intros []].
  destruct (Hcopy conf0 eq_refl) as (Hid & _).
  destruct (NewCommInstance s (NewGossipCryptoService AliveMessage)
              (bytes_of_string endpoint) [WithInsecure]) as [c0 [e|]] eqn:E;
    cbn [snd].
  - intros _ [H | []]. discriminate H.
  - intros [H1 | [H1 | []]] [H2 | [H2 | []]];
      try discriminate H1; try discriminate H2.
    injection H1 as <- <- <- <-. injection H2 as <- <- <- <- <-.
    rewrite Hid, E. now repeat split.
Qed.

End Integration.

Arguments Call_NewCommInstance {AliveMessage Server DialOption Comm} s sec selfIdentity dialOpts.
Arguments Call_NewGossipService {AliveMessage Server DialOption Comm} conf c crypto sec selfIdentity.

(** ** The bootstrap on examples, with the loopback collaborators *)

Local Abbreviation loopback_newConfig :=
  (newConfig unit unit bool LoopbackComm).
Local Abbreviation loopback_bootstrap :=
  (NewGossipComponent unit unit bool LoopbackComm Config true
     loopback_NewCommInstance loopback_NewGossipService).
Local Abbreviation failing_bootstrap :=
  (NewGossipComponent unit unit bool LoopbackComm Config true
     failing_NewCommInstance loopback_NewGossipService).

(** Spec, testable property 7: "127.0.0.1:7051" without peers gives bind
    port 7051 and both handles; a peer that is no address is taken as it
    is. *)
Example bootstrap_end_to_end :
  (exists g c,
     fst (loopback_bootstrap "127.0.0.1:7051" tt []) = Returned (g, c) /\
     BindPort g = 7051 /\ BootstrapPeers g = []) /\
  (exists g c,
     fst (loopback_bootstrap "127.0.0.1:7051" tt ["badaddr"]) = Returned (g, c) /\
     BootstrapPeers g = ["badaddr"]).
Proof.
  split; do 2 eexists; (split; [reflexivity|]); repeat split.
Qed.

(** When the communication layer cannot be set up, the bootstrap panics with
    its error and the gossip service is never constructed. *)
Example bootstrap_comm_failure :
  exists c,
    failing_bootstrap "127.0.0.1:7051" tt [] =
    (Panicked (PanicError (ErrorString "listen failed")), [c]).
Proof. eexists. reflexivity. Qed.

Lemma Verify_succeeds_iff_equal_witness :
  ["a"%byte] <> ["b"%byte] /\
  naiveCryptoServiceImpl_Verify mk_naiveCryptoServiceImpl []
    ["a"%byte] ["b"%byte] = Some (Errorf "Wrong signature" []) /\
  naiveCryptoService_Verify mk_naiveCryptoService (mkPeerIdentityType [])
    ["a"%byte] ["b"%byte] =
    Some (Errorf "Wrong signature:%v, %v" [["a"%byte]; ["b"%byte]]).
Proof.
  assert (Hne : ["a"%byte] <> ["b"%byte]) by discriminate.
  split; [exact Hne|].
  exact (proj2 (proj2 (Verify_succeeds_iff_equal mk_naiveCryptoServiceImpl
                         mk_naiveCryptoService [] (mkPeerIdentityType [])
                         ["a"%byte] ["b"%byte])) Hne).
Defined.

Lemma newConfig_of_wellformed_witness :
  port_segment "127.0.0.1:7051" = Some "7051" /\
  ParseInt "7051" = (7051, None) /\
  decimal_int "7051" = Some 7051 /\
  loopback_newConfig "127.0.0.1:7051" ["10.0.0.2:7051"; "badaddr"] =
    (Returned {| BindPort := 7051;
                 BootstrapPeers := ["10.0.0.2:7051"; "badaddr"];
                 ID := "127.0.0.1:7051";
                 MaxMessageCountToStore := 100;
                 MaxPropagationBurstLatency := 50000000;
                 MaxPropagationBurstSize := 3;
                 PropagateIterations := 1;
                 PropagatePeerNum := 3;
                 PullInterval := 5000000000;
                 PullPeerNum := 3;
                 SelfEndpoint := "127.0.0.1:7051" |}, []).
Proof.
  assert (Hseg : port_segment "127.0.0.1:7051" = Some "7051") by reflexivity.
  assert (Hparse : ParseInt "7051" = (7051, None)) by reflexivity.
  split; [exact Hseg | split; [exact Hparse|]].
  destruct (newConfig_of_wellformed unit unit bool LoopbackComm Config true
              loopback_NewCommInstance loopback_NewGossipService
              "127.0.0.1:7051" "7051" 7051 ["10.0.0.2:7051"; "badaddr"] tt
              Hseg Hparse) as (Hdec & Hconf & _).
  split; [exact Hdec | exact Hconf].
Defined.

Lemma bootstrap_aborts_on_malformed_witness :
  (port_segment "127.0.0.1:http" = Some "http" /\ decimal_int "http" = None) /\
  exists v,
    loopback_newConfig "127.0.0.1:http" [] = (Panicked v, []) /\
    loopback_bootstrap "127.0.0.1:http" tt [] = (Panicked v, []).
Proof.
  assert (H : port_segment "127.0.0.1:http" = Some "http" /\
              decimal_int "http" = None) by (split; reflexivity).
  split; [exact H|].
  apply bootstrap_aborts_on_malformed. right. exists "http". exact H.
Defined.

Lemma bootstrap_without_separator_witness :
  contains_byte ":" "localhost" = false /\
  loopback_bootstrap "localhost" tt [] = (Panicked (IndexOutOfRange 1 1), []).
Proof.
  assert (H : contains_byte ":" "localhost" = false) by reflexivity.
  split; [exact H|].
  exact (proj1 (proj2 (proj2 (bootstrap_without_separator unit unit bool
           LoopbackComm Config true loopback_NewCommInstance
           loopback_NewGossipService "localhost" tt [] H)))).
Defined.

Lemma newConfig_reads_second_segment_witness :
  contains_byte ":" "h" = false /\ contains_byte ":" "1" = false /\
  exists conf,
    loopback_newConfig "h:1:2" [] = (Returned conf, []) /\ BindPort conf = 1.
Proof.
  assert (Ha : contains_byte ":" "h" = false) by reflexivity.
  assert (Hb : contains_byte ":" "1" = false) by reflexivity.
  split; [exact Ha | split; [exact Hb|]].
  exact (newConfig_reads_second_segment unit unit bool LoopbackComm
           "h" "1" "2" [] Ha Hb).
Defined.

(** C1 as stated fails: on "127.0.0.1:7051" the bootstrap returns, and the
    provider it gave to [comm.NewCommInstance] has [IsEnabled] false. *)
Lemma comm_provider_is_not_enabled :
  ~ (forall s sec selfIdentity dialOpts,
       In (Call_NewCommInstance s sec selfIdentity dialOpts)
          (snd (loopback_bootstrap "127.0.0.1:7051" tt [])) ->
       Value_IsEnabled sec = true).
Proof.
  intros H.
  specialize (H tt (NewGossipCryptoService unit)
                (bytes_of_string "127.0.0.1:7051") [true]).
  assert (Hin : In (Call_NewCommInstance tt (NewGossipCryptoService unit)
                      (bytes_of_string "127.0.0.1:7051") [true])
                   (snd (loopback_bootstrap "127.0.0.1:7051" tt [])))
    by (left; reflexivity).
  apply H in Hin. discriminate Hin.
Qed.

Lemma newComm_security_provider_witness :
  (exists conf, loopback_newConfig "127.0.0.1:7051" [] = (Returned conf, [])) /\
  Value_IsEnabled (NewGossipCryptoService unit) = false /\
  exists rest,
    snd (loopback_bootstrap "127.0.0.1:7051" tt []) =
    Call_NewCommInstance tt (NewGossipCryptoService unit)
      (bytes_of_string "127.0.0.1:7051") [true] :: rest.
Proof.
  assert (Hconf : loopback_newConfig "127.0.0.1:7051" [] =
            (Returned {| BindPort := 7051;
                         BootstrapPeers := [];
                         ID := "127.0.0.1:7051";
                         MaxMessageCountToStore := 100;
                         MaxPropagationBurstLatency := 50000000;
                         MaxPropagationBurstSize := 3;
                         PropagateIterations := 1;
                         PropagatePeerNum := 3;
                         PullInterval := 5000000000;
                         PullPeerNum := 3;
                         SelfEndpoint := "127.0.0.1:7051" |}, []))
    by reflexivity.
  split; [eexists; exact Hconf|].
  destruct (newComm_security_provider unit unit bool LoopbackComm Config true
              loopback_NewCommInstance loopback_NewGossipService
              "127.0.0.1:7051" tt [] _ Hconf) as (_ & Hen & _ & rest & Hlog & _).
  split; [exact Hen | exists rest; exact Hlog].
Defined.

Lemma newConfig_panic_value_witness :
  loopback_newConfig "h:99999999999999999999" [] =
    (Panicked (PanicError (NumErr (rangeError "ParseInt" "99999999999999999999"))),
     []) /\
  exists seg e,
    port_segment "h:99999999999999999999" = Some seg /\
    Num e = seg /\ Err e = ErrRange /\ decimal_int seg <> None.
Proof.
  assert (H : loopback_newConfig "h:99999999999999999999" [] =
              (Panicked (PanicError (NumErr
                 (rangeError "ParseInt" "99999999999999999999"))), []))
    by reflexivity.
  split; [exact H|].
  destruct (newConfig_panic_value unit unit bool LoopbackComm _ _ _ H)
    as [[Hv _] | (seg & e & Hseg & Hv & _ & Hnum & _ & Hrange)];
    [discriminate Hv|].
  injection Hv as <-. exists seg, (rangeError "ParseInt" "99999999999999999999").
  injection Hseg as <-. repeat split. discriminate.
Defined.

Lemma newConfig_signed_port_witness :
  contains_byte ":" "localhost" = false /\
  unsigned_decimal "7051" = Some 7051 /\
  (exists conf,
     loopback_newConfig "localhost:+7051" [] = (Returned conf, []) /\
     BindPort conf = 7051) /\
  (exists conf,
     loopback_newConfig "localhost:-7051" [] = (Returned conf, []) /\
     BindPort conf = - 7051).
Proof.
  assert (Hh : contains_byte ":" "localhost" = false) by reflexivity.
  assert (Hd : unsigned_decimal "7051" = Some 7051) by reflexivity.
  assert (Hn : 7051 < 2 ^ 63) by reflexivity.
  split; [exact Hh | split; [exact Hd|]].
  exact (newConfig_signed_port unit unit bool LoopbackComm
           "localhost" "7051" 7051 [] Hh Hd Hn).
Defined.

Lemma bootstrap_same_identity_witness :
  let sec := NewGossipCryptoService unit in
  let selfIdentity := bytes_of_string "127.0.0.1:7051" in
  let c := mkLoopbackComm sec selfIdentity [true] in
  exists conf,
    In (Call_NewCommInstance tt sec selfIdentity [true])
       (snd (loopback_bootstrap "127.0.0.1:7051" tt [])) /\
    In (Call_NewGossipService conf c mk_naiveCryptoService sec
          (mkPeerIdentityType selfIdentity))
       (snd (loopback_bootstrap "127.0.0.1:7051" tt [])) /\
    selfIdentity = bytes_of_string (ID conf).
Proof.
  intros sec selfIdentity c.
  exists {| BindPort := 7051;
            BootstrapPeers := [];
            ID := "127.0.0.1:7051";
            MaxMessageCountToStore := 100;
            MaxPropagationBurstLatency := 50000000;
            MaxPropagationBurstSize := 3;
            PropagateIterations := 1;
            PropagatePeerNum := 3;
            PullInterval := 5000000000;
            PullPeerNum := 3;
            SelfEndpoint := "127.0.0.1:7051" |}.
  match goal with
  | |- ?A /\ ?B /\ _ =>
      assert (H1 : A) by (left; reflexivity);
      assert (H2 : B) by (right; left; reflexivity)
  end.
  split; [exact H1 | split; [exact H2|]].
  exact (proj1 (proj2 (proj2 (bootstrap_same_identity unit unit bool
           LoopbackComm Config true loopback_NewCommInstance
           loopback_NewGossipService _ _ _ _ _ _ _ _ _ _ _ _ H1 H2)))).
Defined.
